(** * Mood-Tracker: the /predict endpoint of [app.py]

    A shallow embedding of the request model [MoodInput], its field
    validation, and the handler [predict_mood], followed by the properties
    the specification states about them.

    Conventions of the embedding:
    - Python [float] values are modelled by exact rationals ([Q]); the
      comparisons of the validator are the exact ones on the value of the
      float, and the rounding of the handler is given by the decimal value
      it selects, not by the float nearest to that value.
    - Python [int] is [Z], [str] is [string].
    - [Literal[...]] fields arrive as strings and are enumerations once
      validated.
    - The functions [predict_mood_score] (module [model]) and
      [generate_recommendations] (module [recommendations]) are imported by
      [app.py]; the handler is parametric in them. *)

From Stdlib Require Import QArith Qround Qminmax Lqa.
From Stdlib Require Import ZArith Lia Bool String List.
From Stdlib Require Import Sorting.Sorted Sorting.Permutation.
Import ListNotations.

Local Open Scope string_scope.
Local Open Scope Z_scope.

(* ------------------------------------------------------------------ *)
(** ** Data model *)

Inductive StressLevel := Low | Medium | High.
Inductive FoodQuality := Healthy | Moderate | Unhealthy.
Inductive Priority := PHigh | PMedium | PLow.

(** The request body after JSON decoding, before validation. *)
Record Payload := mkPayload {
  p_day_rating   : string;
  p_water_intake : Q;
  p_people_met   : Z;
  p_exercise     : Z;
  p_sleep        : Q;
  p_screen_time  : Q;
  p_outdoor_time : Q;
  p_stress_level : string;
  p_food_quality : string
}.

(** class MoodInput(BaseModel) *)
Record MoodInput := mkMoodInput {
  day_rating   : string;
  water_intake : Q;
  people_met   : Z;
  exercise     : Z;
  sleep        : Q;
  screen_time  : Q;
  outdoor_time : Q;
  stress_level : StressLevel;
  food_quality : FoodQuality
}.

(** class Recommendation(BaseModel) *)
Record Recommendation := mkRecommendation {
  priority       : Priority;
  recommendation : string;
  category       : string
}.

(** class MoodOutput(BaseModel) *)
Record MoodOutput := mkMoodOutput {
  mood_score      : Q;
  recommendations : list Recommendation
}.

(** The keyword arguments of the call to [generate_recommendations]:
    every field of the input but [day_rating]. *)
Record RecommenderArgs := mkRecommenderArgs {
  r_water_intake : Q;
  r_people_met   : Z;
  r_exercise     : Z;
  r_sleep        : Q;
  r_screen_time  : Q;
  r_outdoor_time : Q;
  r_stress_level : StressLevel;
  r_food_quality : FoodQuality
}.

(** A Python exception caught by [except Exception]; [str] is [str(e)]. *)
Inductive Exn := PyException (cls : string) (message : string).

Definition str (e : Exn) : string :=
  match e with PyException _ message => message end.

(** HTTPException(status_code=..., detail=...) *)
Record HTTPException := mkHTTPException {
  status_code : Z;
  detail      : string
}.

(* ------------------------------------------------------------------ *)
(** ** Validation of [MoodInput] *)

Inductive ErrorKind :=
| greater_than_equal
| value_error (msg : string)
| literal_error.

Record ErrorItem := mkErrorItem {
  loc  : string;
  kind : ErrorKind
}.

Definition Qgtb (a b : Q) : bool := negb (Qle_bool a b).

(** The dict literal of [check_reasonable_values]. *)
Definition max_values : list (string * Q) :=
  [ ("water_intake", inject_Z 15);
    ("sleep",        inject_Z 24);
    ("screen_time",  inject_Z 24);
    ("outdoor_time", inject_Z 24) ].

Fixpoint dict_get (d : list (string * Q)) (k : string) : option Q :=
  match d with
  | [] => None
  | (k', v) :: d' => if String.eqb k' k then Some v else dict_get d' k
  end.

(** MoodInput.check_reasonable_values(cls, v, info), [field_name] being
    [info.field_name]. *)
Definition check_reasonable_values (field_name : string) (v : Q) : Exn + Q :=
  match dict_get max_values field_name with
  | None => inl (PyException "KeyError" ("'" ++ field_name ++ "'"))
  | Some mx =>
      if Qgtb v mx
      then inl (PyException "ValueError"
                  (field_name ++ " seems unreasonably high"))
      else inr v
  end.

(** Field(ge=0) on a float field. *)
Definition field_float_ge0 (name : string) (v : Q) : ErrorItem + Q :=
  if Qle_bool 0 v then inr v else inl (mkErrorItem name greater_than_equal).

(** Field(ge=0) on an int field. *)
Definition field_int_ge0 (name : string) (v : Z) : ErrorItem + Z :=
  if 0 <=? v then inr v else inl (mkErrorItem name greater_than_equal).

(** A float field with Field(ge=0) that is also listed in the
    [@field_validator] decorator: the validator runs after the field's own
    constraint, and a [ValueError] becomes a [value_error] item. *)
Definition field_float_checked (name : string) (v : Q) : ErrorItem + Q :=
  match field_float_ge0 name v with
  | inl e => inl e
  | inr v' =>
      match check_reasonable_values name v' with
      | inl e => inl (mkErrorItem name (value_error (str e)))
      | inr v'' => inr v''
      end
  end.

(** Literal["Low", "Medium", "High"] *)
Definition field_stress_level (name : string) (s : string)
  : ErrorItem + StressLevel :=
  if String.eqb s "Low" then inr Low
  else if String.eqb s "Medium" then inr Medium
  else if String.eqb s "High" then inr High
  else inl (mkErrorItem name literal_error).

(** Literal["Healthy", "Moderate", "Unhealthy"] *)
Definition field_food_quality (name : string) (s : string)
  : ErrorItem + FoodQuality :=
  if String.eqb s "Healthy" then inr Healthy
  else if String.eqb s "Moderate" then inr Moderate
  else if String.eqb s "Unhealthy" then inr Unhealthy
  else inl (mkErrorItem name literal_error).

(** day_rating: str, with a description only. *)
Definition field_str (name : string) (s : string) : ErrorItem + string :=
  inr s.

(** Accumulation of field results: the constructor is applied when every
    field so far is valid, and the errors of all fields are collected in
    declaration order otherwise. *)
Definition field_ap {A B} (acc : list ErrorItem + (A -> B))
    (r : ErrorItem + A) : list ErrorItem + B :=
  match acc, r with
  | inr f, inr v => inr (f v)
  | inr _, inl e => inl [e]
  | inl es, inr _ => inl es
  | inl es, inl e => inl (es ++ [e])%list
  end.

Notation "acc <*> r" := (field_ap acc r) (at level 61, left associativity).

(** Validation of the whole model: every field is validated and the model
    is built only when no field reports an error. *)
Definition validate (p : Payload) : list ErrorItem + MoodInput :=
  inr mkMoodInput
    <*> field_str "day_rating" (p_day_rating p)
    <*> field_float_checked "water_intake" (p_water_intake p)
    <*> field_int_ge0 "people_met" (p_people_met p)
    <*> field_int_ge0 "exercise" (p_exercise p)
    <*> field_float_checked "sleep" (p_sleep p)
    <*> field_float_checked "screen_time" (p_screen_time p)
    <*> field_float_checked "outdoor_time" (p_outdoor_time p)
    <*> field_stress_level "stress_level" (p_stress_level p)
    <*> field_food_quality "food_quality" (p_food_quality p).

(* ------------------------------------------------------------------ *)
(** ** Rounding: round(x, 1) *)

(** Round to the nearest integer, ties to the even one. *)
Definition round_half_even (y : Q) : Z :=
  let f := Qfloor y in
  let r := (y - inject_Z f)%Q in
  match (r ?= 1 # 2)%Q with
  | Lt => f
  | Gt => f + 1
  | Eq => if Z.even f then f else f + 1
  end.

(** round(x, 1): the decimal value, a whole number of tenths, that the
    builtin chooses for [x]; the float it returns is the one nearest to
    this value. *)
Definition round1 (x : Q) : Q :=
  (inject_Z (round_half_even (x * inject_Z 10)) / inject_Z 10)%Q.

(* ------------------------------------------------------------------ *)
(** ** The handler monad: a call log and exceptions *)

(** What the handler invokes in the imported modules, with the arguments
    passed. *)
Inductive Event :=
| CallScorer (args : MoodInput)
| CallRecommender (args : RecommenderArgs).

(** A computation that may raise an [E] and appends to the log of calls. *)
Definition M (E A : Type) : Type := list Event -> (E + A) * list Event.

Definition ret {E A} (a : A) : M E A := fun log => (inr a, log).

Definition raise {E A} (e : E) : M E A := fun log => (inl e, log).

Definition bind {E A B} (m : M E A) (k : A -> M E B) : M E B :=
  fun log =>
    match m log with
    | (inl e, log') => (inl e, log')
    | (inr a, log') => k a log'
    end.

(** try: body / except Exception as e: handler *)
Definition try_except {E E' A} (body : M E A) (handler : E -> M E' A)
  : M E' A :=
  fun log =>
    match body log with
    | (inl e, log') => handler e log'
    | (inr a, log') => (inr a, log')
    end.

(** A call into an imported function: the call is logged, then the
    function returns or raises. *)
Definition call {E A} (ev : Event) (r : E + A) : M E A :=
  fun log => (r, (log ++ [ev])%list).

Notation "x <- m ;; k" := (bind m (fun x => k))
  (at level 62, m at next level, right associativity).

(* ------------------------------------------------------------------ *)
(** ** The endpoint *)

Inductive Response :=
| Http200 (body : MoodOutput)
| Http422 (errors : list ErrorItem)
| HttpError (status : Z) (detail_text : string).

Definition recommender_args (input_data : MoodInput) : RecommenderArgs :=
  {| r_water_intake := water_intake input_data;
     r_people_met   := people_met input_data;
     r_exercise     := exercise input_data;
     r_sleep        := sleep input_data;
     r_screen_time  := screen_time input_data;
     r_outdoor_time := outdoor_time input_data;
     r_stress_level := stress_level input_data;
     r_food_quality := food_quality input_data |}.

Section Endpoint.

(** from model import predict_mood_score *)
Variable predict_mood_score : MoodInput -> Exn + Q.
(** from recommendations import generate_recommendations *)
Variable generate_recommendations :
  RecommenderArgs -> Exn + list Recommendation.

(** async def predict_mood(input_data: MoodInput) *)
Definition predict_mood (input_data : MoodInput)
  : M HTTPException MoodOutput :=
  try_except
    (mood_score <- call (CallScorer input_data)
                        (predict_mood_score input_data) ;;
     recommendations <- call (CallRecommender (recommender_args input_data))
                             (generate_recommendations
                                (recommender_args input_data)) ;;
     ret (mkMoodOutput (round1 mood_score) recommendations))
    (fun e => raise (mkHTTPException 500 (str e))).

(** POST /predict: the request body is validated against [MoodInput]
    (a failure is answered with 422 and the handler is not entered), then
    the handler runs; an [HTTPException] it raises becomes the response
    with that status and detail. *)
Definition post_predict (p : Payload) : Response * list Event :=
  match validate p with
  | inl errs => (Http422 errs, [])
  | inr input_data =>
      match predict_mood input_data [] with
      | (inr out, log) => (Http200 out, log)
      | (inl exc, log) => (HttpError (status_code exc) (detail exc), log)
      end
  end.

End Endpoint.

(* ------------------------------------------------------------------ *)
(** ** Field updates *)

Definition payload_with_day_rating (s : string) (p : Payload) : Payload :=
  mkPayload s (p_water_intake p) (p_people_met p) (p_exercise p) (p_sleep p)
    (p_screen_time p) (p_outdoor_time p) (p_stress_level p) (p_food_quality p).

Definition payload_with_water_intake (v : Q) (p : Payload) : Payload :=
  mkPayload (p_day_rating p) v (p_people_met p) (p_exercise p) (p_sleep p)
    (p_screen_time p) (p_outdoor_time p) (p_stress_level p) (p_food_quality p).

Definition payload_with_people_met (n : Z) (p : Payload) : Payload :=
  mkPayload (p_day_rating p) (p_water_intake p) n (p_exercise p) (p_sleep p)
    (p_screen_time p) (p_outdoor_time p) (p_stress_level p) (p_food_quality p).

Definition payload_with_exercise (n : Z) (p : Payload) : Payload :=
  mkPayload (p_day_rating p) (p_water_intake p) (p_people_met p) n (p_sleep p)
    (p_screen_time p) (p_outdoor_time p) (p_stress_level p) (p_food_quality p).

Definition payload_with_sleep (v : Q) (p : Payload) : Payload :=
  mkPayload (p_day_rating p) (p_water_intake p) (p_people_met p)
    (p_exercise p) v (p_screen_time p) (p_outdoor_time p) (p_stress_level p)
    (p_food_quality p).

Definition payload_with_screen_time (v : Q) (p : Payload) : Payload :=
  mkPayload (p_day_rating p) (p_water_intake p) (p_people_met p)
    (p_exercise p) (p_sleep p) v (p_outdoor_time p) (p_stress_level p)
    (p_food_quality p).

Definition payload_with_outdoor_time (v : Q) (p : Payload) : Payload :=
  mkPayload (p_day_rating p) (p_water_intake p) (p_people_met p)
    (p_exercise p) (p_sleep p) (p_screen_time p) v (p_stress_level p)
    (p_food_quality p).

Definition with_day_rating (s : string) (m : MoodInput) : MoodInput :=
  mkMoodInput s (water_intake m) (people_met m) (exercise m) (sleep m)
    (screen_time m) (outdoor_time m) (stress_level m) (food_quality m).

Definition with_people_met (n : Z) (m : MoodInput) : MoodInput :=
  mkMoodInput (day_rating m) (water_intake m) n (exercise m) (sleep m)
    (screen_time m) (outdoor_time m) (stress_level m) (food_quality m).

Definition with_exercise (n : Z) (m : MoodInput) : MoodInput :=
  mkMoodInput (day_rating m) (water_intake m) (people_met m) n (sleep m)
    (screen_time m) (outdoor_time m) (stress_level m) (food_quality m).

(** The constraints of the fields of [MoodInput], as a predicate on the
    payload. *)
Definition stress_literal (s : string) : Prop :=
  s = "Low" \/ s = "Medium" \/ s = "High".

Definition food_literal (s : string) : Prop :=
  s = "Healthy" \/ s = "Moderate" \/ s = "Unhealthy".

Definition in_range (mx : Z) (v : Q) : Prop :=
  (0 <= v)%Q /\ (v <= inject_Z mx)%Q.

Record constraints_hold (p : Payload) : Prop := mkConstraints {
  c_water_intake : in_range 15 (p_water_intake p);
  c_people_met   : 0 <= p_people_met p;
  c_exercise     : 0 <= p_exercise p;
  c_sleep        : in_range 24 (p_sleep p);
  c_screen_time  : in_range 24 (p_screen_time p);
  c_outdoor_time : in_range 24 (p_outdoor_time p);
  c_stress_level : stress_literal (p_stress_level p);
  c_food_quality : food_literal (p_food_quality p)
}.

(* ------------------------------------------------------------------ *)
(** ** The Scorer *)

Module Scorer.

(** Modelled from the spec: the module [model], which defines
    [predict_mood_score], is not among the sources.  Section 4.1 of the
    specification describes it as a scoring function over per-factor
    terms (sleep adequacy, exercise adequacy, stress penalty, food-quality
    bonus or penalty, social-contact term, screen-time penalty,
    outdoor-time bonus, and an adjustment derived from the day rating)
    combined into one composite score and clamped to [0,10]; the exact
    weighting is left to the implementation, so the terms are the fields
    of a record. *)
Record Terms := mkTerms {
  base_score            : Q;
  sleep_adequacy        : Q -> Q;
  healthy_ceiling       : Q;
  exercise_adequacy     : Z -> Q;
  hydration_term        : Q -> Q;
  social_contact_term   : Z -> Q;
  screen_time_penalty   : Q -> Q;
  outdoor_time_bonus    : Q -> Q;
  stress_penalty        : StressLevel -> Q;
  food_quality_term     : FoodQuality -> Q;
  day_rating_adjustment : string -> Q
}.

Definition clamp (lo hi x : Q) : Q := Qmax lo (Qmin hi x).

(** Modelled from the spec: the composite score before clamping. *)
Definition composite (t : Terms) (m : MoodInput) : Q :=
  (base_score t
   + sleep_adequacy t (sleep m)
   + exercise_adequacy t (exercise m)
   + hydration_term t (water_intake m)
   + social_contact_term t (people_met m)
   - screen_time_penalty t (screen_time m)
   + outdoor_time_bonus t (outdoor_time m)
   - stress_penalty t (stress_level m)
   + food_quality_term t (food_quality m)
   + day_rating_adjustment t (day_rating m))%Q.

(** Modelled from the spec: [predict_mood_score] of the absent module
    [model], "clamped so output never leaves [0,10]". *)
Definition predict_mood_score (t : Terms) (m : MoodInput) : Q :=
  clamp 0 10 (composite t m).

(** The Scorer as the handler calls it: it returns, it does not raise. *)
Definition callee (t : Terms) (m : MoodInput) : Exn + Q :=
  inr (predict_mood_score t m).

(** One choice of terms, used to run the model on concrete inputs. *)
Definition example_terms : Terms :=
  {| base_score := 5;
     sleep_adequacy := fun s => (Qmin s 8 / 4)%Q;
     healthy_ceiling := 8;
     exercise_adequacy := fun n => (inject_Z (Z.min n 60) / 60)%Q;
     hydration_term := fun w => (Qmin w 3 / 6)%Q;
     social_contact_term := fun n => (inject_Z (Z.min n 5) / 10)%Q;
     screen_time_penalty := fun h => (h / 8)%Q;
     outdoor_time_bonus := fun h => (Qmin h 2 / 4)%Q;
     stress_penalty :=
       fun s => match s with Low => 0 | Medium => 1 | High => 2 end%Q;
     food_quality_term :=
       fun f => match f with Healthy => 1 | Moderate => 0
                        | Unhealthy => - (1) end%Q;
     day_rating_adjustment := fun _ => 0%Q |}.

End Scorer.

(* ------------------------------------------------------------------ *)
(** ** The Recommender *)

Module Recommender.

(** Modelled from the spec: the module [recommendations], which defines
    [generate_recommendations], is not among the sources.  Section 4.2 of
    the specification describes a fixed table of threshold rules, each
    evaluated independently of the others, each fired rule emitting
    exactly one recommendation with a statically associated priority and
    category. *)
Record Rule := mkRule {
  fires : RecommenderArgs -> bool;
  emits : Recommendation
}.

(** Priority rank: High before Medium before Low. *)
Definition rank (p : Priority) : nat :=
  match p with PHigh => 0 | PMedium => 1 | PLow => 2 end%nat.

Definition priority_eqb (p q : Priority) : bool := Nat.eqb (rank p) (rank q).

(** The recommendations of the rules that fire, in declaration order. *)
Definition fired (table : list Rule) (a : RecommenderArgs)
  : list Recommendation :=
  map emits (filter (fun r => fires r a) table).

(** Stable insertion: [x] goes before the first entry that does not
    outrank it strictly, hence before the entries of its own priority. *)
Fixpoint insert (x : Recommendation) (l : list Recommendation)
  : list Recommendation :=
  match l with
  | [] => [x]
  | y :: l' =>
      if (rank (priority x) <=? rank (priority y))%nat
      then x :: y :: l'
      else y :: insert x l'
  end.

(** Stable sort by priority rank. *)
Fixpoint sort_by_priority (l : list Recommendation) : list Recommendation :=
  match l with
  | [] => []
  | x :: l' => insert x (sort_by_priority l')
  end.

(** Modelled from the spec: [generate_recommendations] of the absent
    module [recommendations]: the fired rules, ordered by priority rank,
    ties in declaration order. *)
Definition generate_recommendations (table : list Rule)
    (a : RecommenderArgs) : list Recommendation :=
  sort_by_priority (fired table a).

(** The Recommender as the handler calls it. *)
Definition callee (table : list Rule) (a : RecommenderArgs)
  : Exn + list Recommendation :=
  inr (generate_recommendations table a).

Definition has_priority (p : Priority) (r : Recommendation) : bool :=
  priority_eqb (priority r) p.

Definition outranks_or_ties (x y : Recommendation) : Prop :=
  (rank (priority x) <= rank (priority y))%nat.

End Recommender.

(* ------------------------------------------------------------------ *)
(** ** Sample inputs *)

(** End-to-end scenario 1 of the specification. *)
Definition scenario1 : Payload :=
  mkPayload "ok" 2 3 30 (15 # 2) 4 1 "Low" "Healthy".

(** Every metric at its minimum. *)
Definition minimum_payload : Payload :=
  mkPayload "" 0 0 0 0 0 0 "High" "Unhealthy".

(** Every bounded metric at its maximum. *)
Definition maximum_payload : Payload :=
  mkPayload "great" 15 1000 1000 24 24 24 "Low" "Healthy".

(** A Scorer that raises. *)
Definition failing_scorer (m : MoodInput) : Exn + Q :=
  inl (PyException "RuntimeError" "model not loaded").

(** A Recommender that raises. *)
Definition failing_recommender (a : RecommenderArgs)
  : Exn + list Recommendation :=
  inl (PyException "KeyError" "'priority'").

(** A small rule table in the style of section 4.2. *)
Definition example_table : list Recommender.Rule :=
  [ Recommender.mkRule (fun a => Qgtb 1 (r_outdoor_time a))
      (mkRecommendation PLow "Spend some time outside" "outdoors");
    Recommender.mkRule (fun a => Qgtb 6 (r_sleep a))
      (mkRecommendation PHigh "Sleep at least seven hours" "sleep");
    Recommender.mkRule (fun a => Qgtb (r_screen_time a) 8)
      (mkRecommendation PMedium "Reduce screen time" "screen_time");
    Recommender.mkRule
      (fun a => match r_stress_level a with High => true | _ => false end)
      (mkRecommendation PHigh "Take time to relax" "stress");
    Recommender.mkRule (fun a => r_people_met a =? 0)
      (mkRecommendation PLow "Reach out to a friend" "social") ].


(* ------------------------------------------------------------------ *)
(** ** Outcomes of a request *)

Section Outcomes.

Variable scorer : MoodInput -> Exn + Q.
Variable recommender : RecommenderArgs -> Exn + list Recommendation.

(** The request is answered by the validation failure and nothing of the
    imported modules has been called. *)
Definition rejected (p : Payload) : Prop :=
  exists errs, post_predict scorer recommender p = (Http422 errs, []).

(** The request passes validation as the model [m] and the handler calls
    the Scorer on it. *)
Definition accepted_as (p : Payload) (m : MoodInput) : Prop :=
  validate p = inr m /\
  exists rest, snd (post_predict scorer recommender p) = CallScorer m :: rest.

(** The three ways a validated request ends. *)
Inductive outcome (m : MoodInput) : Response * list Event -> Prop :=
| scorer_raised e :
    scorer m = inl e ->
    outcome m (HttpError 500 (str e), [CallScorer m])
| recommender_raised s e :
    scorer m = inr s ->
    recommender (recommender_args m) = inl e ->
    outcome m (HttpError 500 (str e),
               [CallScorer m; CallRecommender (recommender_args m)])
| both_returned s recs :
    scorer m = inr s ->
    recommender (recommender_args m) = inr recs ->
    outcome m (Http200 (mkMoodOutput (round1 s) recs),
               [CallScorer m; CallRecommender (recommender_args m)]).

End Outcomes.

(** The model that validation builds from [scenario1]. *)
Definition scenario1_input : MoodInput :=
  mkMoodInput "ok" 2 3 30 (15 # 2) 4 1 Low Healthy.

(* ------------------------------------------------------------------ *)
(** ** Further notions about validation *)

(** The fields named in the decorator
    [@field_validator('water_intake', 'sleep', 'screen_time',
    'outdoor_time')]. *)
Definition validated_fields : list string :=
  ["water_intake"; "sleep"; "screen_time"; "outdoor_time"].

(** The strings of the two [Literal] types. *)
Definition stress_name (s : StressLevel) : string :=
  match s with Low => "Low" | Medium => "Medium" | High => "High" end.

Definition food_name (f : FoodQuality) : string :=
  match f with
  | Healthy => "Healthy" | Moderate => "Moderate" | Unhealthy => "Unhealthy"
  end.

(** The field values of a model, as a payload. *)
Definition payload_of (m : MoodInput) : Payload :=
  mkPayload (day_rating m) (water_intake m) (people_met m) (exercise m)
    (sleep m) (screen_time m) (outdoor_time m)
    (stress_name (stress_level m)) (food_name (food_quality m)).

Definition float_within (mx : Z) (v : Q) : bool :=
  Qle_bool 0 v && Qle_bool v (inject_Z mx).

Definition is_stress_literal (s : string) : bool :=
  String.eqb s "Low" || String.eqb s "Medium" || String.eqb s "High".

Definition is_food_literal (s : string) : bool :=
  String.eqb s "Healthy" || String.eqb s "Moderate"
  || String.eqb s "Unhealthy".

Definition name_unless (ok : bool) (name : string) : list string :=
  if ok then [] else [name].

(** The names of the fields of a payload that break their constraint, in
    the order in which [MoodInput] declares them. *)
Definition violating_fields (p : Payload) : list string :=
  (name_unless (float_within 15 (p_water_intake p)) "water_intake"
   ++ name_unless (0 <=? p_people_met p) "people_met"
   ++ name_unless (0 <=? p_exercise p) "exercise"
   ++ name_unless (float_within 24 (p_sleep p)) "sleep"
   ++ name_unless (float_within 24 (p_screen_time p)) "screen_time"
   ++ name_unless (float_within 24 (p_outdoor_time p)) "outdoor_time"
   ++ name_unless (is_stress_literal (p_stress_level p)) "stress_level"
   ++ name_unless (is_food_literal (p_food_quality p)) "food_quality")%list.

(** The errors a field result contributes. *)
Definition errors_of {A} (r : ErrorItem + A) : list ErrorItem :=
  match r with inl e => [e] | inr _ => [] end.

(** The errors accumulated so far. *)
Definition errors_so_far {A} (r : list ErrorItem + A) : list ErrorItem :=
  match r with inl es => es | inr _ => [] end.
(* ------------------------------------------------------------------ *)
(** ** Validation: what is accepted *)

Lemma Qgtb_true (a b : Q) : Qgtb a b = true <-> (b < a)%Q.
Proof.
  unfold Qgtb. rewrite negb_true_iff, <- not_true_iff_false, Qle_bool_iff.
  split; [apply Qnot_le_lt | apply Qlt_not_le].
Qed.

Lemma Qgtb_false (a b : Q) : Qgtb a b = false <-> (a <= b)%Q.
Proof.
  unfold Qgtb. rewrite negb_false_iff. apply Qle_bool_iff.
Qed.

Lemma field_float_ge0_inr name v v' :
  field_float_ge0 name v = inr v' <-> (0 <= v)%Q /\ v' = v.
Proof.
  unfold field_float_ge0. destruct (Qle_bool 0 v) eqn:E.
  - apply Qle_bool_iff in E. split.
    + intros H. inversion H; subst. auto.
    + intros [_ ->]. reflexivity.
  - split; [discriminate|]. intros [H _].
    apply Qle_bool_iff in H. congruence.
Qed.

Lemma field_int_ge0_inr name v v' :
  field_int_ge0 name v = inr v' <-> 0 <= v /\ v' = v.
Proof.
  unfold field_int_ge0. destruct (0 <=? v) eqn:E.
  - apply Z.leb_le in E. split.
    + intros H. inversion H; subst. auto.
    + intros [_ ->]. reflexivity.
  - apply Z.leb_gt in E. split; [discriminate|]. intros [H _]. lia.
Qed.

Lemma check_reasonable_values_inr name mx v v' :
  dict_get max_values name = Some mx ->
  check_reasonable_values name v = inr v' <-> (v <= mx)%Q /\ v' = v.
Proof.
  intros D. unfold check_reasonable_values. rewrite D.
  destruct (Qgtb v mx) eqn:E.
  - apply Qgtb_true in E. split; [discriminate|].
    intros [H _]. exfalso. revert E. apply Qle_not_lt, H.
  - apply Qgtb_false in E. split.
    + intros H. inversion H; subst. auto.
    + intros [_ ->]. reflexivity.
Qed.

Lemma field_float_checked_inr name mx v v' :
  dict_get max_values name = Some (inject_Z mx) ->
  field_float_checked name v = inr v' <-> in_range mx v /\ v' = v.
Proof.
  intros D. unfold field_float_checked, in_range.
  destruct (field_float_ge0 name v) as [e|w] eqn:G.
  - split; [discriminate|]. intros [[H _] _].
    assert (X : field_float_ge0 name v = inr v)
      by (apply field_float_ge0_inr; auto).
    congruence.
  - apply field_float_ge0_inr in G. destruct G as [G ->].
    destruct (check_reasonable_values name v) as [e|w] eqn:C.
    + split; [discriminate|]. intros [[_ H] _].
      assert (X : check_reasonable_values name v = inr v)
        by (apply (check_reasonable_values_inr _ _ _ _ D); auto).
      congruence.
    + apply (check_reasonable_values_inr _ _ _ _ D) in C.
      destruct C as [C ->]. split.
      * intros H. inversion H; subst. auto.
      * intros [_ ->]. reflexivity.
Qed.

Lemma field_stress_level_inr name s :
  (exists v, field_stress_level name s = inr v) <-> stress_literal s.
Proof.
  unfold field_stress_level, stress_literal.
  destruct (String.eqb_spec s "Low"); [split; eauto|].
  destruct (String.eqb_spec s "Medium"); [split; eauto|].
  destruct (String.eqb_spec s "High"); [split; eauto|].
  split; [intros [v H]; discriminate | intuition congruence].
Qed.

Lemma field_food_quality_inr name s :
  (exists v, field_food_quality name s = inr v) <-> food_literal s.
Proof.
  unfold field_food_quality, food_literal.
  destruct (String.eqb_spec s "Healthy"); [split; eauto|].
  destruct (String.eqb_spec s "Moderate"); [split; eauto|].
  destruct (String.eqb_spec s "Unhealthy"); [split; eauto|].
  split; [intros [v H]; discriminate | intuition congruence].
Qed.

Lemma field_ap_inr {A B} (acc : list ErrorItem + (A -> B)) r b :
  acc <*> r = inr b <-> exists f v, acc = inr f /\ r = inr v /\ b = f v.
Proof.
  destruct acc as [es|f], r as [e|v]; simpl; split;
    try discriminate;
    try (intros (f' & v' & H1 & H2 & _); discriminate).
  - intros H. inversion H. eauto.
  - intros (f' & v' & H1 & H2 & ->). congruence.
Qed.

(** A payload is accepted exactly when every field meets its constraint,
    and the model then carries the values of the payload. *)
Lemma validate_inr p m :
  validate p = inr m <->
  constraints_hold p /\
  exists s f,
    field_stress_level "stress_level" (p_stress_level p) = inr s /\
    field_food_quality "food_quality" (p_food_quality p) = inr f /\
    m = mkMoodInput (p_day_rating p) (p_water_intake p) (p_people_met p)
          (p_exercise p) (p_sleep p) (p_screen_time p) (p_outdoor_time p)
          s f.
Proof.
  unfold validate. split.
  - intros H.
    apply field_ap_inr in H. destruct H as (f9 & v9 & H & E9 & ->).
    apply field_ap_inr in H. destruct H as (f8 & v8 & H & E8 & ->).
    apply field_ap_inr in H. destruct H as (f7 & v7 & H & E7 & ->).
    apply field_ap_inr in H. destruct H as (f6 & v6 & H & E6 & ->).
    apply field_ap_inr in H. destruct H as (f5 & v5 & H & E5 & ->).
    apply field_ap_inr in H. destruct H as (f4 & v4 & H & E4 & ->).
    apply field_ap_inr in H. destruct H as (f3 & v3 & H & E3 & ->).
    apply field_ap_inr in H. destruct H as (f2 & v2 & H & E2 & ->).
    apply field_ap_inr in H. destruct H as (f1 & v1 & H & E1 & ->).
    inversion H; subst f1. inversion E1; subst v1.
    apply (field_float_checked_inr _ 15) in E2; [|reflexivity].
    apply field_int_ge0_inr in E3. apply field_int_ge0_inr in E4.
    apply (field_float_checked_inr _ 24) in E5; [|reflexivity].
    apply (field_float_checked_inr _ 24) in E6; [|reflexivity].
    apply (field_float_checked_inr _ 24) in E7; [|reflexivity].
    destruct E2 as [? ->], E3 as [? ->], E4 as [? ->], E5 as [? ->],
             E6 as [? ->], E7 as [? ->].
    split.
    + constructor; auto.
      * apply (field_stress_level_inr "stress_level"); eauto.
      * apply (field_food_quality_inr "food_quality"); eauto.
    + exists v8, v9. auto.
  - intros [C (s & f & E8 & E9 & ->)]. destruct C.
    rewrite E8, E9. unfold field_str.
    rewrite (proj2 (field_float_checked_inr "water_intake" 15 _ _ eq_refl)
               (conj c_water_intake0 eq_refl)).
    rewrite (proj2 (field_int_ge0_inr "people_met" _ _)
               (conj c_people_met0 eq_refl)).
    rewrite (proj2 (field_int_ge0_inr "exercise" _ _)
               (conj c_exercise0 eq_refl)).
    rewrite (proj2 (field_float_checked_inr "sleep" 24 _ _ eq_refl)
               (conj c_sleep0 eq_refl)).
    rewrite (proj2 (field_float_checked_inr "screen_time" 24 _ _ eq_refl)
               (conj c_screen_time0 eq_refl)).
    rewrite (proj2 (field_float_checked_inr "outdoor_time" 24 _ _ eq_refl)
               (conj c_outdoor_time0 eq_refl)).
    reflexivity.
Qed.

Lemma validate_accepts_iff p :
  (exists m, validate p = inr m) <-> constraints_hold p.
Proof.
  split.
  - intros [m H]. apply validate_inr in H. tauto.
  - intros C.
    destruct (proj2 (field_stress_level_inr "stress_level" _)
                (c_stress_level _ C)) as [s Hs].
    destruct (proj2 (field_food_quality_inr "food_quality" _)
                (c_food_quality _ C)) as [f Hf].
    eexists. apply validate_inr. split; [exact C|]. eauto.
Qed.

Lemma validate_rejects p :
  ~ constraints_hold p -> exists errs, validate p = inl errs.
Proof.
  intros N. destruct (validate p) as [errs|m] eqn:E; [eauto|].
  exfalso. apply N, validate_accepts_iff. eauto.
Qed.

(* ------------------------------------------------------------------ *)
(** ** The handler, case by case *)

Section EndpointFacts.

Variable scorer : MoodInput -> Exn + Q.
Variable recommender : RecommenderArgs -> Exn + list Recommendation.

Lemma predict_mood_scorer_raises m e :
  scorer m = inl e ->
  predict_mood scorer recommender m [] =
    (inl (mkHTTPException 500 (str e)), [CallScorer m]).
Proof.
  intros H. unfold predict_mood, try_except, bind, call, raise.
  rewrite H. reflexivity.
Qed.

Lemma predict_mood_recommender_raises m s e :
  scorer m = inr s ->
  recommender (recommender_args m) = inl e ->
  predict_mood scorer recommender m [] =
    (inl (mkHTTPException 500 (str e)),
     [CallScorer m; CallRecommender (recommender_args m)]).
Proof.
  intros H1 H2. unfold predict_mood, try_except, bind, call, raise.
  rewrite H1, H2. reflexivity.
Qed.

Lemma predict_mood_returns m s recs :
  scorer m = inr s ->
  recommender (recommender_args m) = inr recs ->
  predict_mood scorer recommender m [] =
    (inr (mkMoodOutput (round1 s) recs),
     [CallScorer m; CallRecommender (recommender_args m)]).
Proof.
  intros H1 H2. unfold predict_mood, try_except, bind, call, ret.
  rewrite H1, H2. reflexivity.
Qed.

(** The Scorer is the first call of the handler, whatever happens next. *)
Lemma predict_mood_calls_scorer m :
  exists rest, snd (predict_mood scorer recommender m []) =
               CallScorer m :: rest.
Proof.
  destruct (scorer m) as [e|s] eqn:H1.
  - rewrite (predict_mood_scorer_raises _ _ H1). simpl. eauto.
  - destruct (recommender (recommender_args m)) as [e|recs] eqn:H2.
    + rewrite (predict_mood_recommender_raises _ _ _ H1 H2). simpl. eauto.
    + rewrite (predict_mood_returns _ _ _ H1 H2). simpl. eauto.
Qed.

Lemma post_predict_rejected p errs :
  validate p = inl errs ->
  post_predict scorer recommender p = (Http422 errs, []).
Proof. intros H. unfold post_predict. rewrite H. reflexivity. Qed.

Lemma post_predict_accepted p m :
  validate p = inr m ->
  post_predict scorer recommender p =
    match predict_mood scorer recommender m [] with
    | (inr out, log) => (Http200 out, log)
    | (inl exc, log) => (HttpError (status_code exc) (detail exc), log)
    end.
Proof. intros H. unfold post_predict. rewrite H. reflexivity. Qed.

Lemma post_predict_log p m :
  validate p = inr m ->
  snd (post_predict scorer recommender p) =
  snd (predict_mood scorer recommender m []).
Proof.
  intros H. rewrite (post_predict_accepted _ _ H).
  destruct (predict_mood scorer recommender m []) as [[exc|out] log];
    reflexivity.
Qed.

End EndpointFacts.

(** Changing one field of a payload leaves the constraints of the others. *)
Lemma constraints_with_water_intake v p :
  constraints_hold p -> in_range 15 v ->
  constraints_hold (payload_with_water_intake v p).
Proof. intros [] H. constructor; simpl; assumption. Qed.

Lemma constraints_with_sleep v p :
  constraints_hold p -> in_range 24 v ->
  constraints_hold (payload_with_sleep v p).
Proof. intros [] H. constructor; simpl; assumption. Qed.

Lemma constraints_with_screen_time v p :
  constraints_hold p -> in_range 24 v ->
  constraints_hold (payload_with_screen_time v p).
Proof. intros [] H. constructor; simpl; assumption. Qed.

Lemma constraints_with_outdoor_time v p :
  constraints_hold p -> in_range 24 v ->
  constraints_hold (payload_with_outdoor_time v p).
Proof. intros [] H. constructor; simpl; assumption. Qed.

Lemma constraints_with_people_met n p :
  constraints_hold p -> 0 <= n ->
  constraints_hold (payload_with_people_met n p).
Proof. intros [] H. constructor; simpl; assumption. Qed.

Lemma constraints_with_exercise n p :
  constraints_hold p -> 0 <= n ->
  constraints_hold (payload_with_exercise n p).
Proof. intros [] H. constructor; simpl; assumption. Qed.

Lemma constraints_with_day_rating s p :
  constraints_hold p -> constraints_hold (payload_with_day_rating s p).
Proof. intros []. constructor; simpl; assumption. Qed.

Lemma in_range_at_bound mx : 0 <= mx -> in_range mx (inject_Z mx).
Proof.
  intros H. split; [|apply Qle_refl].
  change 0%Q with (inject_Z 0). rewrite <- Zle_Qle. exact H.
Qed.

Lemma above_bound_out_of_range mx v : (inject_Z mx < v)%Q -> ~ in_range mx v.
Proof. intros H [_ H']. revert H. apply Qle_not_lt, H'. Qed.

Ltac accept_payload :=
  apply validate_accepts_iff; eexists; vm_compute; reflexivity.

Lemma scenario1_constraints : constraints_hold scenario1.
Proof. accept_payload. Qed.

Lemma minimum_payload_constraints : constraints_hold minimum_payload.
Proof. accept_payload. Qed.

Lemma maximum_payload_constraints : constraints_hold maximum_payload.
Proof. accept_payload. Qed.

Lemma rejected_of_violation scorer recommender p :
  ~ constraints_hold p -> rejected scorer recommender p.
Proof.
  intros N. destruct (validate_rejects _ N) as [errs H].
  exists errs. apply post_predict_rejected, H.
Qed.

Lemma accepted_of_constraints scorer recommender p :
  constraints_hold p ->
  exists m, accepted_as scorer recommender p m /\
    day_rating m = p_day_rating p /\
    water_intake m = p_water_intake p /\
    people_met m = p_people_met p /\
    exercise m = p_exercise p /\
    sleep m = p_sleep p /\
    screen_time m = p_screen_time p /\
    outdoor_time m = p_outdoor_time p.
Proof.
  intros C. destruct (proj2 (validate_accepts_iff p) C) as [m H].
  exists m. split.
  - split; [exact H|]. rewrite (post_predict_log _ _ _ _ H).
    apply predict_mood_calls_scorer.
  - apply validate_inr in H. destruct H as [_ (s & f & _ & _ & ->)].
    simpl. repeat split.
Qed.

(* ------------------------------------------------------------------ *)
(** ** Upper bounds of the validated fields *)

(** C2: a payload in which water_intake exceeds 15, or sleep, screen_time
    or outdoor_time exceeds 24, is rejected by validation before the Scorer
    or the Recommender is called, whatever its other fields; a value equal
    to its bound is accepted when the other fields meet their constraints:
    the bounds are inclusive. *)
Theorem upper_bounds_are_inclusive scorer recommender (p : Payload) :
  ((15 < p_water_intake p)%Q \/ (24 < p_sleep p)%Q \/
   (24 < p_screen_time p)%Q \/ (24 < p_outdoor_time p)%Q ->
   rejected scorer recommender p) /\
  (constraints_hold p ->
   (exists m, accepted_as scorer recommender
                (payload_with_water_intake 15 p) m /\ water_intake m = 15%Q) /\
   (exists m, accepted_as scorer recommender
                (payload_with_sleep 24 p) m /\ sleep m = 24%Q) /\
   (exists m, accepted_as scorer recommender
                (payload_with_screen_time 24 p) m /\ screen_time m = 24%Q) /\
   (exists m, accepted_as scorer recommender
                (payload_with_outdoor_time 24 p) m /\
              outdoor_time m = 24%Q)).
Proof.
  split.
  - intros H. apply rejected_of_violation. intros C. destruct C.
    destruct H as [H|[H|[H|H]]];
      eapply (above_bound_out_of_range _ _ H); eassumption.
  - intros C. repeat split.
    + destruct (accepted_of_constraints scorer recommender _
                  (constraints_with_water_intake 15 p C
                     (in_range_at_bound 15 ltac:(lia))))
        as (m & A & E). exists m. split; [exact A|]. apply E.
    + destruct (accepted_of_constraints scorer recommender _
                  (constraints_with_sleep 24 p C
                     (in_range_at_bound 24 ltac:(lia))))
        as (m & A & E). exists m. split; [exact A|]. apply E.
    + destruct (accepted_of_constraints scorer recommender _
                  (constraints_with_screen_time 24 p C
                     (in_range_at_bound 24 ltac:(lia))))
        as (m & A & E). exists m. split; [exact A|]. apply E.
    + destruct (accepted_of_constraints scorer recommender _
                  (constraints_with_outdoor_time 24 p C
                     (in_range_at_bound 24 ltac:(lia))))
        as (m & A & E). exists m. split; [exact A|]. apply E.
Qed.

(** sleep = 25 is rejected; sleep = 24 and water_intake = 15 are accepted. *)
Lemma upper_bounds_are_inclusive_witness :
  rejected (Scorer.callee Scorer.example_terms)
    (Recommender.callee example_table) (payload_with_sleep 25 scenario1) /\
  (exists m, accepted_as (Scorer.callee Scorer.example_terms)
               (Recommender.callee example_table)
               (payload_with_sleep 24 scenario1) m /\ sleep m = 24%Q) /\
  (exists m, accepted_as (Scorer.callee Scorer.example_terms)
               (Recommender.callee example_table)
               (payload_with_water_intake 15 scenario1) m /\
             water_intake m = 15%Q).
Proof.
  split; [|split].
  - apply (proj1 (upper_bounds_are_inclusive _ _
                    (payload_with_sleep 25 scenario1))).
    right; left. reflexivity.
  - apply (proj2 (upper_bounds_are_inclusive _ _ scenario1)
             scenario1_constraints).
  - apply (proj2 (upper_bounds_are_inclusive _ _ scenario1)
             scenario1_constraints).
Defined.

(* ------------------------------------------------------------------ *)
(** ** The day rating *)

(** C3, as stated, fails: [minimum_payload] has the empty string as its
    day rating, passes validation, and is handed to the Scorer and the
    Recommender. *)
Lemma empty_day_rating_not_rejected :
  p_day_rating minimum_payload = "" /\
  ~ rejected (Scorer.callee Scorer.example_terms)
      (Recommender.callee example_table) minimum_payload /\
  exists m,
    validate minimum_payload = inr m /\
    day_rating m = "" /\
    snd (post_predict (Scorer.callee Scorer.example_terms)
           (Recommender.callee example_table) minimum_payload) =
    [CallScorer m; CallRecommender (recommender_args m)].
Proof.
  split; [reflexivity|]. split.
  - intros [errs H]. vm_compute in H. discriminate H.
  - eexists. split; [vm_compute; reflexivity|]. split; reflexivity.
Qed.

(** C3 (amended): the day rating is a free-form string without a length
    constraint: a payload whose day_rating is the empty string is accepted
    exactly when its other fields meet their constraints, and the Scorer is
    then called with the empty day rating. *)
Theorem empty_day_rating_accepted scorer recommender (p : Payload) :
  p_day_rating p = "" ->
  (rejected scorer recommender p <-> ~ constraints_hold p) /\
  (constraints_hold p ->
   exists m, accepted_as scorer recommender p m /\ day_rating m = "").
Proof.
  intros E. split; [split|].
  - intros [errs H] C.
    destruct (proj2 (validate_accepts_iff p) C) as [m V].
    unfold post_predict in H. rewrite V in H.
    destruct (predict_mood scorer recommender m []) as [[exc|out] log];
      discriminate H.
  - apply rejected_of_violation.
  - intros C.
    destruct (accepted_of_constraints scorer recommender p C)
      as (m & A & D & _).
    exists m. split; [exact A|]. rewrite D. exact E.
Qed.

Lemma empty_day_rating_accepted_witness :
  exists m, accepted_as (Scorer.callee Scorer.example_terms)
              (Recommender.callee example_table) minimum_payload m /\
            day_rating m = "".
Proof.
  apply (proj2 (empty_day_rating_accepted _ _ minimum_payload eq_refl)
           minimum_payload_constraints).
Defined.

(* ------------------------------------------------------------------ *)
(** ** Fields without an upper bound *)

(** C9: people_met and exercise have no upper bound: when the other fields
    of a payload meet their constraints, every nonnegative integer value of
    people_met, and of exercise, passes validation; the Scorer is called
    with that value, and so is the Recommender once the Scorer has
    returned. *)
Theorem people_met_and_exercise_unbounded scorer recommender
    (p : Payload) (n : Z) :
  constraints_hold p -> 0 <= n ->
  (exists m,
     accepted_as scorer recommender (payload_with_people_met n p) m /\
     people_met m = n /\
     forall s, scorer m = inr s ->
       exists a,
         snd (post_predict scorer recommender (payload_with_people_met n p))
           = [CallScorer m; CallRecommender a] /\
         r_people_met a = n) /\
  (exists m,
     accepted_as scorer recommender (payload_with_exercise n p) m /\
     exercise m = n /\
     forall s, scorer m = inr s ->
       exists a,
         snd (post_predict scorer recommender (payload_with_exercise n p))
           = [CallScorer m; CallRecommender a] /\
         r_exercise a = n).
Proof.
  intros C Hn. split.
  - destruct (accepted_of_constraints scorer recommender _
                (constraints_with_people_met n p C Hn))
      as (m & A & _ & _ & E & _).
    exists m. split; [exact A|]. split; [exact E|].
    intros s Hs. exists (recommender_args m). split; [|exact E].
    destruct A as [V _]. rewrite (post_predict_log _ _ _ _ V).
    destruct (recommender (recommender_args m)) as [e|recs] eqn:R.
    + rewrite (predict_mood_recommender_raises _ _ _ _ _ Hs R). reflexivity.
    + rewrite (predict_mood_returns _ _ _ _ _ Hs R). reflexivity.
  - destruct (accepted_of_constraints scorer recommender _
                (constraints_with_exercise n p C Hn))
      as (m & A & _ & _ & _ & E & _).
    exists m. split; [exact A|]. split; [exact E|].
    intros s Hs. exists (recommender_args m). split; [|exact E].
    destruct A as [V _]. rewrite (post_predict_log _ _ _ _ V).
    destruct (recommender (recommender_args m)) as [e|recs] eqn:R.
    + rewrite (predict_mood_recommender_raises _ _ _ _ _ Hs R). reflexivity.
    + rewrite (predict_mood_returns _ _ _ _ _ Hs R). reflexivity.
Qed.

Lemma people_met_and_exercise_unbounded_witness :
  exists m,
    accepted_as (Scorer.callee Scorer.example_terms)
      (Recommender.callee example_table)
      (payload_with_people_met (10 ^ 30) scenario1) m /\
    people_met m = 10 ^ 30.
Proof.
  destruct (people_met_and_exercise_unbounded
              (Scorer.callee Scorer.example_terms)
              (Recommender.callee example_table) scenario1 (10 ^ 30)
              scenario1_constraints ltac:(lia)) as [(m & A & E & _) _].
  exists m. split; assumption.
Defined.

(* ------------------------------------------------------------------ *)
(** ** Responses of the handler *)

Section Responses.

Variable scorer : MoodInput -> Exn + Q.
Variable recommender : RecommenderArgs -> Exn + list Recommendation.

Lemma post_predict_outcome p m :
  validate p = inr m -> outcome scorer recommender m (post_predict scorer recommender p).
Proof.
  intros V. rewrite (post_predict_accepted _ _ _ _ V).
  destruct (scorer m) as [e|s] eqn:H1.
  - rewrite (predict_mood_scorer_raises _ _ _ _ H1).
    apply scorer_raised, H1.
  - destruct (recommender (recommender_args m)) as [e|recs] eqn:H2.
    + rewrite (predict_mood_recommender_raises _ _ _ _ _ H1 H2).
      eapply recommender_raised; eassumption.
    + rewrite (predict_mood_returns _ _ _ _ _ H1 H2).
      eapply both_returned; eassumption.
Qed.

Lemma post_predict_200_inv p out :
  fst (post_predict scorer recommender p) = Http200 out ->
  exists m s recs,
    validate p = inr m /\ scorer m = inr s /\
    recommender (recommender_args m) = inr recs /\
    post_predict scorer recommender p = (Http200 (mkMoodOutput (round1 s) recs),
              [CallScorer m; CallRecommender (recommender_args m)]) /\
    out = mkMoodOutput (round1 s) recs.
Proof.
  intros H. destruct (validate p) as [errs|m] eqn:V.
  - rewrite (post_predict_rejected _ _ _ _ V) in H.
    discriminate H.
  - pose proof (post_predict_outcome _ _ V) as O.
    destruct O as [e H1|s e H1 H2|s recs H1 H2]; simpl in H;
      try discriminate H.
    inversion H; subst out. exists m, s, recs. auto.
Qed.

End Responses.

(* ------------------------------------------------------------------ *)
(** ** Failures of the imported functions *)

(** C7: when the Scorer or the Recommender raises during a /predict
    request, the response has status 500 and its detail is the text of the
    exception; each function has been called at most once (no retry) and
    the response carries no mood score or recommendation (no partial
    result); and a response with an error status other than the validation
    failure arises in no other way. *)
Theorem core_failure_is_http_500 scorer recommender
    (p : Payload) (m : MoodInput) :
  validate p = inr m ->
  (forall e, scorer m = inl e ->
     post_predict scorer recommender p =
       (HttpError 500 (str e), [CallScorer m])) /\
  (forall s e, scorer m = inr s ->
     recommender (recommender_args m) = inl e ->
     post_predict scorer recommender p =
       (HttpError 500 (str e),
        [CallScorer m; CallRecommender (recommender_args m)])) /\
  (forall status text,
     fst (post_predict scorer recommender p) = HttpError status text ->
     status = 500 /\
     exists e, text = str e /\
       (scorer m = inl e \/
        exists s, scorer m = inr s /\
                  recommender (recommender_args m) = inl e)).
Proof.
  intros V. pose proof (post_predict_outcome scorer recommender _ _ V) as O.
  split; [|split].
  - intros e He.
    rewrite (post_predict_accepted _ _ _ _ V),
            (predict_mood_scorer_raises _ _ _ _ He). reflexivity.
  - intros s e Hs He.
    rewrite (post_predict_accepted _ _ _ _ V),
            (predict_mood_recommender_raises _ _ _ _ _ Hs He). reflexivity.
  - intros status text H.
    destruct O as [e H1|s e H1 H2|s recs H1 H2]; simpl in H;
      try discriminate H; inversion H; subst; (split; [reflexivity|]);
      exists e; (split; [reflexivity|]); [left|right; exists s]; auto.
Qed.

Lemma core_failure_is_http_500_witness :
  post_predict failing_scorer (Recommender.callee example_table) scenario1 =
    (HttpError 500 "model not loaded",
     [CallScorer (mkMoodInput "ok" 2 3 30 (15 # 2) 4 1 Low Healthy)]) /\
  post_predict (Scorer.callee Scorer.example_terms) failing_recommender
    scenario1 =
    (HttpError 500 "'priority'",
     [CallScorer (mkMoodInput "ok" 2 3 30 (15 # 2) 4 1 Low Healthy);
      CallRecommender (mkRecommenderArgs 2 3 30 (15 # 2) 4 1 Low Healthy)]).
Proof.
  split.
  - apply (proj1 (core_failure_is_http_500 failing_scorer
                    (Recommender.callee example_table) scenario1 _ eq_refl)
             (PyException "RuntimeError" "model not loaded") eq_refl).
  - apply (proj1 (proj2 (core_failure_is_http_500
                           (Scorer.callee Scorer.example_terms)
                           failing_recommender scenario1 _ eq_refl))
             _ (PyException "KeyError" "'priority'") eq_refl eq_refl).
Defined.

(* ------------------------------------------------------------------ *)
(** ** The day rating and the recommendations *)

Lemma recommender_args_with_day_rating s m :
  recommender_args (with_day_rating s m) = recommender_args m.
Proof. reflexivity. Qed.

Lemma validate_with_day_rating s p m :
  validate p = inr m ->
  validate (payload_with_day_rating s p) = inr (with_day_rating s m).
Proof.
  intros V. apply validate_inr in V.
  destruct V as [C (st & f & E8 & E9 & ->)].
  apply validate_inr. split; [apply constraints_with_day_rating, C|].
  exists st, f. simpl. auto.
Qed.

(** C10: the recommendations do not depend on the day rating: two requests
    that differ only in day_rating and are both answered with a result
    carry the same recommendations, the Recommender being called with the
    same arguments, none of which is the day rating. *)
Theorem recommendations_ignore_day_rating scorer recommender
    (p : Payload) (s : string) (out1 out2 : MoodOutput) :
  fst (post_predict scorer recommender p) = Http200 out1 ->
  fst (post_predict scorer recommender (payload_with_day_rating s p))
    = Http200 out2 ->
  recommendations out1 = recommendations out2 /\
  forall a1 a2,
    In (CallRecommender a1) (snd (post_predict scorer recommender p)) ->
    In (CallRecommender a2)
       (snd (post_predict scorer recommender (payload_with_day_rating s p)))
    -> a1 = a2.
Proof.
  intros H1 H2.
  apply post_predict_200_inv in H1, H2.
  destruct H1 as (m1 & s1 & recs1 & V1 & _ & R1 & P1 & ->).
  destruct H2 as (m2 & s2 & recs2 & V2 & _ & R2 & P2 & ->).
  rewrite (validate_with_day_rating s _ _ V1) in V2.
  inversion V2; subst m2. rewrite recommender_args_with_day_rating in *.
  split.
  - simpl. congruence.
  - rewrite P1, P2. simpl. intros a1 a2 [H|[H|[]]] [H'|[H'|[]]];
      congruence.
Qed.

Lemma recommendations_ignore_day_rating_witness :
  exists out1 out2,
    fst (post_predict (Scorer.callee Scorer.example_terms)
           (Recommender.callee example_table) minimum_payload) = Http200 out1 /\
    fst (post_predict (Scorer.callee Scorer.example_terms)
           (Recommender.callee example_table)
           (payload_with_day_rating "a dreadful day" minimum_payload))
      = Http200 out2 /\
    recommendations out1 = recommendations out2.
Proof.
  eexists. eexists. split; [vm_compute; reflexivity|].
  split; [vm_compute; reflexivity|].
  apply (recommendations_ignore_day_rating
           (Scorer.callee Scorer.example_terms)
           (Recommender.callee example_table) minimum_payload
           "a dreadful day" _ _ eq_refl eq_refl).
Defined.

(* ------------------------------------------------------------------ *)
(** ** Rounding keeps the score in range *)

Lemma round_half_even_floor (y : Q) :
  Qfloor y <= round_half_even y <= Qfloor y + 1.
Proof.
  unfold round_half_even. cbv zeta.
  destruct (y - inject_Z (Qfloor y) ?= 1 # 2)%Q;
    [destruct (Z.even (Qfloor y))|..]; lia.
Qed.

Lemma round_half_even_lower (n : Z) (y : Q) :
  (inject_Z n <= y)%Q -> n <= round_half_even y.
Proof.
  intros H. apply Qfloor_resp_le in H. rewrite Qfloor_Z in H.
  pose proof (round_half_even_floor y). lia.
Qed.

Lemma round_half_even_upper (n : Z) (y : Q) :
  (y <= inject_Z n)%Q -> round_half_even y <= n.
Proof.
  intros H. pose proof (Qfloor_resp_le _ _ H) as F. rewrite Qfloor_Z in F.
  destruct (Z.eq_dec (Qfloor y) n) as [E|N].
  - unfold round_half_even. cbv zeta.
    assert (L : (y - inject_Z (Qfloor y) < 1 # 2)%Q).
    { rewrite E. apply Qle_lt_trans with (y := 0%Q); [lra|reflexivity]. }
    rewrite (proj1 (Qlt_alt _ _) L). lia.
  - pose proof (round_half_even_floor y). lia.
Qed.

Lemma round1_in_range (x : Q) :
  (0 <= x)%Q -> (x <= 10)%Q -> (0 <= round1 x)%Q /\ (round1 x <= 10)%Q.
Proof.
  intros L U. unfold round1.
  assert (Lk : 0 <= round_half_even (x * inject_Z 10)).
  { apply round_half_even_lower. change (inject_Z 0) with 0%Q.
    change (inject_Z 10) with 10%Q. lra. }
  assert (Uk : round_half_even (x * inject_Z 10) <= 100).
  { apply round_half_even_upper. change (inject_Z 100) with 100%Q.
    change (inject_Z 10) with 10%Q. lra. }
  rewrite Zle_Qle in Lk, Uk.
  change (inject_Z 0) with 0%Q in Lk. change (inject_Z 100) with 100%Q in Uk.
  change (inject_Z 10) with 10%Q in *.
  revert Lk Uk.
  generalize (inject_Z (round_half_even (x * 10))).
  intros k Lk Uk. split.
  - apply Qle_shift_div_l; [reflexivity|]. lra.
  - apply Qle_shift_div_r; [reflexivity|]. lra.
Qed.

Lemma clamp_in_range (lo hi x : Q) :
  (lo <= hi)%Q -> (lo <= Scorer.clamp lo hi x)%Q /\ (Scorer.clamp lo hi x <= hi)%Q.
Proof.
  intros H. unfold Scorer.clamp. split.
  - apply Q.le_max_l.
  - apply Q.max_lub; [exact H | apply Q.le_min_l].
Qed.

Lemma predict_mood_score_in_range (t : Scorer.Terms) (m : MoodInput) :
  (0 <= Scorer.predict_mood_score t m)%Q /\
  (Scorer.predict_mood_score t m <= 10)%Q.
Proof. apply clamp_in_range. discriminate. Qed.

(** C1: for every payload accepted by validation, the mood score that
    /predict returns, the Scorer's output rounded to one decimal place, lies
    in the closed interval [0,10]: the rounded score is in range, every
    answer with a result carries a score in range, and the answer is such a
    result whenever the Recommender returns. *)
Theorem mood_score_in_range (t : Scorer.Terms) recommender
    (p : Payload) (m : MoodInput) :
  validate p = inr m ->
  ((0 <= round1 (Scorer.predict_mood_score t m))%Q /\
   (round1 (Scorer.predict_mood_score t m) <= 10)%Q) /\
  (forall out,
     fst (post_predict (Scorer.callee t) recommender p) = Http200 out ->
     (0 <= mood_score out)%Q /\ (mood_score out <= 10)%Q) /\
  (forall recs,
     recommender (recommender_args m) = inr recs ->
     fst (post_predict (Scorer.callee t) recommender p) =
       Http200 (mkMoodOutput (round1 (Scorer.predict_mood_score t m)) recs)).
Proof.
  intros V.
  assert (R : forall m', (0 <= round1 (Scorer.predict_mood_score t m'))%Q /\
                         (round1 (Scorer.predict_mood_score t m') <= 10)%Q).
  { intros m'. apply round1_in_range; apply predict_mood_score_in_range. }
  split; [apply R|]. split.
  - intros out H. apply post_predict_200_inv in H.
    destruct H as (m' & s & recs & _ & S & _ & _ & ->).
    unfold Scorer.callee in S. inversion S; subst s. simpl. apply R.
  - intros recs H.
    rewrite (post_predict_accepted _ _ _ _ V),
            (predict_mood_returns _ _ _ _ _ eq_refl H).
    reflexivity.
Qed.

(** The minimum-metric and the maximum-allowed-metric payloads are accepted
    and their scores are in range. *)
Lemma mood_score_in_range_witness :
  (exists m, validate minimum_payload = inr m /\
     (0 <= round1 (Scorer.predict_mood_score Scorer.example_terms m))%Q /\
     (round1 (Scorer.predict_mood_score Scorer.example_terms m) <= 10)%Q) /\
  (exists m, validate maximum_payload = inr m /\
     (0 <= round1 (Scorer.predict_mood_score Scorer.example_terms m))%Q /\
     (round1 (Scorer.predict_mood_score Scorer.example_terms m) <= 10)%Q).
Proof.
  split.
  - eexists. split; [vm_compute; reflexivity|].
    apply (proj1 (mood_score_in_range Scorer.example_terms
                    (Recommender.callee example_table)
                    minimum_payload _ eq_refl)).
  - eexists. split; [vm_compute; reflexivity|].
    apply (proj1 (mood_score_in_range Scorer.example_terms
                    (Recommender.callee example_table)
                    maximum_payload _ eq_refl)).
Defined.

(* ------------------------------------------------------------------ *)
(** ** Order of the recommendations *)

Module RecommenderFacts.
Import Recommender.

Lemma insert_perm x l : Permutation (x :: l) (insert x l).
Proof.
  induction l as [|y l IH]; simpl; [reflexivity|].
  destruct (rank (priority x) <=? rank (priority y))%nat; [reflexivity|].
  rewrite perm_swap. apply perm_skip, IH.
Qed.

Lemma sort_perm l : Permutation l (sort_by_priority l).
Proof.
  induction l as [|x l IH]; simpl; [reflexivity|].
  rewrite <- insert_perm. apply perm_skip, IH.
Qed.

Lemma insert_Forall (P : Recommendation -> Prop) x l :
  P x -> Forall P l -> Forall P (insert x l).
Proof.
  intros Hx Hl. induction Hl as [|y l Hy Hl IH]; simpl.
  - constructor; auto.
  - destruct (rank (priority x) <=? rank (priority y))%nat;
      repeat constructor; auto.
Qed.

Lemma insert_sorted x l :
  StronglySorted outranks_or_ties l ->
  StronglySorted outranks_or_ties (insert x l).
Proof.
  induction 1 as [|y l S IH F]; simpl.
  - repeat constructor.
  - destruct (rank (priority x) <=? rank (priority y))%nat eqn:E.
    + apply Nat.leb_le in E. constructor.
      * constructor; assumption.
      * constructor; [exact E|].
        eapply Forall_impl; [|exact F].
        unfold outranks_or_ties in *. intros z Hz. lia.
    + apply Nat.leb_gt in E. constructor; [exact IH|].
      apply insert_Forall; [|exact F].
      unfold outranks_or_ties. lia.
Qed.

Lemma sort_sorted l : StronglySorted outranks_or_ties (sort_by_priority l).
Proof.
  induction l as [|x l IH]; simpl; [constructor|].
  apply insert_sorted, IH.
Qed.

(** Insertion keeps the entries of each priority in their order, the new
    entry first among its equals. *)
Lemma insert_filter p x l :
  filter (has_priority p) (insert x l) =
  filter (has_priority p) (x :: l).
Proof.
  induction l as [|y l IH]; [reflexivity|]. simpl insert.
  destruct (rank (priority x) <=? rank (priority y))%nat eqn:E;
    [reflexivity|].
  apply Nat.leb_gt in E.
  change (filter (has_priority p) (y :: insert x l))
    with (if has_priority p y
          then y :: filter (has_priority p) (insert x l)
          else filter (has_priority p) (insert x l)).
  rewrite IH. simpl.
  unfold has_priority, priority_eqb.
  destruct (Nat.eqb_spec (rank (priority x)) (rank p)),
           (Nat.eqb_spec (rank (priority y)) (rank p));
    try reflexivity.
  lia.
Qed.

Lemma sort_filter p l :
  filter (has_priority p) (sort_by_priority l) = filter (has_priority p) l.
Proof.
  induction l as [|x l IH]; [reflexivity|]. simpl sort_by_priority.
  rewrite insert_filter. simpl. rewrite IH. reflexivity.
Qed.

Lemma filter_none p l :
  Forall (fun y => rank (priority y) <> rank p) l ->
  filter (has_priority p) l = [].
Proof.
  induction 1 as [|y l Hy _ IH]; [reflexivity|]. simpl.
  unfold has_priority at 1, priority_eqb.
  destruct (Nat.eqb_spec (rank (priority y)) (rank p)); [contradiction|].
  exact IH.
Qed.

Lemma filter_head p x l :
  filter (has_priority p) (x :: l) =
  if priority_eqb (priority x) p
  then x :: filter (has_priority p) l
  else filter (has_priority p) l.
Proof. reflexivity. Qed.

Lemma filter_below q l p :
  Forall (fun y => rank q <= rank (priority y))%nat l ->
  (rank p < rank q)%nat ->
  filter (has_priority p) l = [].
Proof.
  intros F H. apply filter_none. eapply Forall_impl; [|exact F].
  simpl. intros z Hz. lia.
Qed.

(** A list sorted by priority is its High entries, then its Medium
    entries, then its Low entries. *)
Lemma sorted_by_blocks l :
  StronglySorted outranks_or_ties l ->
  l = (filter (has_priority PHigh) l ++ filter (has_priority PMedium) l
       ++ filter (has_priority PLow) l)%list.
Proof.
  induction 1 as [|x l S IH F]; [reflexivity|].
  unfold outranks_or_ties in F. rewrite !filter_head.
  destruct (priority x) eqn:Px; cbn [priority_eqb rank Nat.eqb].
  - simpl. f_equal. exact IH.
  - rewrite (filter_below _ l PHigh F) in * by (simpl; lia).
    simpl in *. f_equal. exact IH.
  - rewrite (filter_below _ l PHigh F) in * by (simpl; lia).
    rewrite (filter_below _ l PMedium F) in * by (simpl; lia).
    simpl in *. f_equal. exact IH.
Qed.

End RecommenderFacts.

(** C5: the recommendations the Recommender returns are in non-increasing
    priority: every High entry comes before every Medium entry, and every
    Medium entry before every Low entry; entries of equal priority keep the
    declaration order of their rules in the table. *)
Theorem recommendations_ordered_by_priority
    (table : list Recommender.Rule) (a : RecommenderArgs) :
  StronglySorted Recommender.outranks_or_ties
    (Recommender.generate_recommendations table a) /\
  (forall p,
     filter (Recommender.has_priority p)
       (Recommender.generate_recommendations table a) =
     filter (Recommender.has_priority p) (Recommender.fired table a)) /\
  Recommender.generate_recommendations table a =
    (filter (Recommender.has_priority PHigh) (Recommender.fired table a)
     ++ filter (Recommender.has_priority PMedium) (Recommender.fired table a)
     ++ filter (Recommender.has_priority PLow) (Recommender.fired table a))%list.
Proof.
  unfold Recommender.generate_recommendations.
  pose proof (RecommenderFacts.sort_sorted (Recommender.fired table a)) as S.
  split; [exact S|]. split.
  - intros p. apply RecommenderFacts.sort_filter.
  - rewrite (RecommenderFacts.sorted_by_blocks _ S) at 1.
    rewrite !RecommenderFacts.sort_filter. reflexivity.
Qed.

(** The second scenario of the specification on the example table: the two
    High entries in declaration order, then Medium, then the Low ones. *)
Example recommendations_scenario2 :
  map category
    (Recommender.generate_recommendations example_table
       (mkRecommenderArgs 2 0 30 3 12 0 High Unhealthy)) =
  ["sleep"; "stress"; "screen_time"; "outdoors"; "social"].
Proof. reflexivity. Qed.

(** On the first scenario of the specification no rule of the example table
    fires and the sequence is empty. *)
Example recommendations_scenario1 :
  Recommender.generate_recommendations example_table
    (recommender_args scenario1_input) = [].
Proof. reflexivity. Qed.

(* ------------------------------------------------------------------ *)
(** ** The scenarios of the specification, evaluated *)

(** Scenario 3: water_intake = 20 is rejected, and nothing is computed. *)
Example scenario3_rejected :
  post_predict (Scorer.callee Scorer.example_terms)
    (Recommender.callee example_table)
    (payload_with_water_intake 20 scenario1) =
  (Http422 [mkErrorItem "water_intake"
              (value_error "water_intake seems unreasonably high")], []).
Proof. reflexivity. Qed.

(** The errors of all fields are reported together, in declaration order;
    a negative value fails the field's own constraint and the validator is
    not run on it. *)
Example errors_are_aggregated :
  validate (mkPayload "" 16 (-1) 0 (-2) 25 0 "low" "Healthy") =
  inl [mkErrorItem "water_intake"
         (value_error "water_intake seems unreasonably high");
       mkErrorItem "people_met" greater_than_equal;
       mkErrorItem "sleep" greater_than_equal;
       mkErrorItem "screen_time"
         (value_error "screen_time seems unreasonably high");
       mkErrorItem "stress_level" literal_error].
Proof. reflexivity. Qed.

Example scenario1_validated : validate scenario1 = inr scenario1_input.
Proof. reflexivity. Qed.

(** Ties go to the even digit. *)
Example round1_ties :
  (round1 (1 # 4) == 2 # 10)%Q /\ (round1 (3 # 4) == 8 # 10)%Q /\
  (round1 (999 # 100) == 10)%Q.
Proof. repeat split. Qed.

(* ------------------------------------------------------------------ *)
(** ** Validation: acceptance, values and errors *)

(** X1: a payload passes validation exactly when every field meets its
    constraint (water_intake in [0,15]; sleep, screen_time and outdoor_time
    in [0,24]; people_met and exercise nonnegative; stress_level and
    food_quality one of their three literals); otherwise the request is
    answered with 422 and neither imported function is called. *)
Theorem validation_accepts_exactly scorer recommender (p : Payload) :
  ((exists m, accepted_as scorer recommender p m) <-> constraints_hold p) /\
  (rejected scorer recommender p <-> ~ constraints_hold p).
Proof.
  split; split.
  - intros (m & V & _). apply validate_accepts_iff. eauto.
  - intros C. destruct (accepted_of_constraints scorer recommender p C)
      as (m & A & _). eauto.
  - intros [errs H] C.
    destruct (proj2 (validate_accepts_iff p) C) as [m V].
    unfold post_predict in H. rewrite V in H.
    destruct (predict_mood scorer recommender m []) as [[exc|out] log];
      discriminate H.
  - apply rejected_of_violation.
Qed.

Lemma field_stress_level_name name s v :
  field_stress_level name s = inr v -> stress_name v = s.
Proof.
  unfold field_stress_level.
  destruct (String.eqb_spec s "Low");
    [intros H; inversion H; subst; reflexivity|].
  destruct (String.eqb_spec s "Medium");
    [intros H; inversion H; subst; reflexivity|].
  destruct (String.eqb_spec s "High");
    [intros H; inversion H; subst; reflexivity|].
  discriminate.
Qed.

Lemma field_food_quality_name name s v :
  field_food_quality name s = inr v -> food_name v = s.
Proof.
  unfold field_food_quality.
  destruct (String.eqb_spec s "Healthy");
    [intros H; inversion H; subst; reflexivity|].
  destruct (String.eqb_spec s "Moderate");
    [intros H; inversion H; subst; reflexivity|].
  destruct (String.eqb_spec s "Unhealthy");
    [intros H; inversion H; subst; reflexivity|].
  discriminate.
Qed.

Lemma field_stress_level_of_name name v :
  field_stress_level name (stress_name v) = inr v.
Proof. destruct v; reflexivity. Qed.

Lemma field_food_quality_of_name name v :
  field_food_quality name (food_name v) = inr v.
Proof. destruct v; reflexivity. Qed.

Lemma validation_keeps_values_aux (p : Payload) (m : MoodInput) :
  validate p = inr m -> payload_of m = p.
Proof.
  intros V. apply validate_inr in V.
  destruct V as [_ (s & f & Hs & Hf & ->)].
  unfold payload_of. simpl.
  rewrite (field_stress_level_name _ _ _ Hs),
          (field_food_quality_name _ _ _ Hf).
  destruct p; reflexivity.
Qed.

(** X2: validation changes no value: the model built from an accepted
    payload holds the payload's values (the validator returns [v] itself and
    each literal is kept by name), so writing the model back as a payload
    gives the payload, and validating that again gives the same model. *)
Theorem validation_keeps_values (p : Payload) (m : MoodInput) :
  validate p = inr m ->
  payload_of m = p /\ validate (payload_of m) = inr m.
Proof.
  intros V. assert (E : payload_of m = p).
  { apply validate_inr in V. destruct V as [_ (s & f & Hs & Hf & ->)].
    unfold payload_of. simpl.
    rewrite (field_stress_level_name _ _ _ Hs),
            (field_food_quality_name _ _ _ Hf).
    destruct p; reflexivity. }
  split; [exact E|]. rewrite E. exact V.
Qed.

Lemma validation_keeps_values_witness :
  payload_of scenario1_input = scenario1 /\
  validate (payload_of scenario1_input) = inr scenario1_input.
Proof.
  apply (validation_keeps_values scenario1 scenario1_input eq_refl).
Defined.

(** X3: the lower bounds are inclusive at zero: a payload with a negative
    water_intake, people_met, exercise, sleep, screen_time or outdoor_time
    is rejected before any call, whatever its other fields, and a payload
    that meets its constraints still does with any of these set to zero. *)
Theorem lower_bounds_are_inclusive scorer recommender (p : Payload) :
  ((p_water_intake p < 0)%Q \/ p_people_met p < 0 \/ p_exercise p < 0 \/
   (p_sleep p < 0)%Q \/ (p_screen_time p < 0)%Q \/
   (p_outdoor_time p < 0)%Q ->
   rejected scorer recommender p) /\
  (constraints_hold p ->
   (exists m, accepted_as scorer recommender
                (payload_with_water_intake 0 p) m) /\
   (exists m, accepted_as scorer recommender
                (payload_with_people_met 0 p) m) /\
   (exists m, accepted_as scorer recommender
                (payload_with_exercise 0 p) m) /\
   (exists m, accepted_as scorer recommender (payload_with_sleep 0 p) m) /\
   (exists m, accepted_as scorer recommender
                (payload_with_screen_time 0 p) m) /\
   (exists m, accepted_as scorer recommender
                (payload_with_outdoor_time 0 p) m)).
Proof.
  split.
  - intros H. apply rejected_of_violation. intros [[] ? ? [] [] []].
    destruct H as [H|[H|[H|[H|[H|H]]]]];
      try lia; revert H; apply Qle_not_lt; assumption.
  - intros C.
    assert (Z15 : in_range 15 0) by (split; discriminate).
    assert (Z24 : in_range 24 0) by (split; discriminate).
    repeat split.
    + destruct (accepted_of_constraints scorer recommender _
                  (constraints_with_water_intake 0 p C Z15)) as (m & A & _).
      eauto.
    + destruct (accepted_of_constraints scorer recommender _
                  (constraints_with_people_met 0 p C (Z.le_refl 0)))
        as (m & A & _). eauto.
    + destruct (accepted_of_constraints scorer recommender _
                  (constraints_with_exercise 0 p C (Z.le_refl 0)))
        as (m & A & _). eauto.
    + destruct (accepted_of_constraints scorer recommender _
                  (constraints_with_sleep 0 p C Z24)) as (m & A & _).
      eauto.
    + destruct (accepted_of_constraints scorer recommender _
                  (constraints_with_screen_time 0 p C Z24)) as (m & A & _).
      eauto.
    + destruct (accepted_of_constraints scorer recommender _
                  (constraints_with_outdoor_time 0 p C Z24)) as (m & A & _).
      eauto.
Qed.

Lemma lower_bounds_are_inclusive_witness :
  rejected (Scorer.callee Scorer.example_terms)
    (Recommender.callee example_table)
    (payload_with_exercise (-1) scenario1) /\
  exists m, accepted_as (Scorer.callee Scorer.example_terms)
              (Recommender.callee example_table)
              (payload_with_sleep 0 scenario1) m.
Proof.
  split.
  - apply (proj1 (lower_bounds_are_inclusive _ _
                    (payload_with_exercise (-1) scenario1))).
    right; right; left. reflexivity.
  - apply (proj2 (lower_bounds_are_inclusive _ _ scenario1)
             scenario1_constraints).
Defined.

Lemma errors_so_far_field_ap {A B} (acc : list ErrorItem + (A -> B))
    (r : ErrorItem + A) :
  errors_so_far (acc <*> r) = (errors_so_far acc ++ errors_of r)%list.
Proof.
  destruct acc as [es|f], r as [e|v]; simpl; try reflexivity.
  symmetry. apply app_nil_r.
Qed.

Lemma field_ap_errors_nonempty {A B} (acc : list ErrorItem + (A -> B))
    (r : ErrorItem + A) :
  (forall es, acc = inl es -> es <> []) ->
  forall es, acc <*> r = inl es -> es <> [].
Proof.
  intros N es H. destruct acc as [es'|f], r as [e|v]; simpl in H;
    inversion H; subst; try discriminate.
  - intros E. apply app_eq_nil in E. destruct E as [_ E]. discriminate E.
  - apply N. reflexivity.
Qed.

Lemma field_float_checked_loc name mx v :
  dict_get max_values name = Some (inject_Z mx) ->
  map loc (errors_of (field_float_checked name v)) =
  name_unless (float_within mx v) name.
Proof.
  intros D. unfold field_float_checked, field_float_ge0, float_within,
    check_reasonable_values.
  destruct (Qle_bool 0 v); [|reflexivity].
  rewrite D. unfold Qgtb.
  destruct (Qle_bool v (inject_Z mx)); reflexivity.
Qed.

Lemma field_int_ge0_loc name v :
  map loc (errors_of (field_int_ge0 name v)) = name_unless (0 <=? v) name.
Proof. unfold field_int_ge0. destruct (0 <=? v); reflexivity. Qed.

Lemma field_stress_level_loc name s :
  map loc (errors_of (field_stress_level name s)) =
  name_unless (is_stress_literal s) name.
Proof.
  unfold field_stress_level, is_stress_literal.
  destruct (String.eqb s "Low"), (String.eqb s "Medium"),
           (String.eqb s "High"); reflexivity.
Qed.

Lemma field_food_quality_loc name s :
  map loc (errors_of (field_food_quality name s)) =
  name_unless (is_food_literal s) name.
Proof.
  unfold field_food_quality, is_food_literal.
  destruct (String.eqb s "Healthy"), (String.eqb s "Moderate"),
           (String.eqb s "Unhealthy"); reflexivity.
Qed.

Lemma validate_error_locs p :
  map loc (errors_so_far (validate p)) = violating_fields p.
Proof.
  unfold validate, violating_fields.
  rewrite !errors_so_far_field_ap, !map_app.
  rewrite (field_float_checked_loc "water_intake" 15 _ eq_refl),
          (field_float_checked_loc "sleep" 24 _ eq_refl),
          (field_float_checked_loc "screen_time" 24 _ eq_refl),
          (field_float_checked_loc "outdoor_time" 24 _ eq_refl),
          !field_int_ge0_loc, field_stress_level_loc, field_food_quality_loc.
  rewrite <- !app_assoc. reflexivity.
Qed.

Lemma validate_errors_nonempty p errs : validate p = inl errs -> errs <> [].
Proof.
  unfold validate.
  repeat (apply field_ap_errors_nonempty). discriminate.
Qed.

(** X4: a rejected request reports the fields that break their constraint,
    each once and in the order of their declaration in [MoodInput], and
    reports no other field; an accepted payload has no such field. *)
Theorem errors_name_the_violating_fields (p : Payload) :
  (forall errs, validate p = inl errs ->
     errs <> [] /\ map loc errs = violating_fields p) /\
  (forall m, validate p = inr m -> violating_fields p = []).
Proof.
  pose proof (validate_error_locs p) as L. split.
  - intros errs V. split; [exact (validate_errors_nonempty _ _ V)|].
    rewrite V in L. exact L.
  - intros m V. rewrite V in L. symmetry. exact L.
Qed.

Lemma errors_name_the_violating_fields_witness :
  (exists errs,
     validate (mkPayload "" 16 (-1) 0 (-2) 25 0 "low" "Healthy") = inl errs /\
     map loc errs =
       ["water_intake"; "people_met"; "sleep"; "screen_time";
        "stress_level"]) /\
  violating_fields scenario1 = [].
Proof.
  split.
  - eexists. split; [reflexivity|].
    apply (proj1 (errors_name_the_violating_fields
                    (mkPayload "" 16 (-1) 0 (-2) 25 0 "low" "Healthy"))
             _ eq_refl).
  - apply (proj2 (errors_name_the_violating_fields scenario1)
             scenario1_input eq_refl).
Defined.

(* ------------------------------------------------------------------ *)
(** ** The validator [check_reasonable_values] *)

Lemma validated_field_max name :
  In name validated_fields ->
  exists mx, dict_get max_values name = Some (inject_Z mx) /\
             (mx = 15 \/ mx = 24).
Proof.
  intros [<-|[<-|[<-|[<-|[]]]]]; [exists 15|exists 24|exists 24|exists 24];
    split; auto.
Qed.

Lemma unvalidated_field_max name :
  ~ In name validated_fields -> dict_get max_values name = None.
Proof.
  intros N. unfold validated_fields in N. cbn [In] in N.
  unfold max_values. cbn [dict_get].
  destruct (String.eqb_spec "water_intake" name); [tauto|].
  destruct (String.eqb_spec "sleep" name); [tauto|].
  destruct (String.eqb_spec "screen_time" name); [tauto|].
  destruct (String.eqb_spec "outdoor_time" name); [tauto|].
  reflexivity.
Qed.

(** X5: on a field of the decorator, the three outcomes of its validation:
    a negative value is reported as [greater_than_equal] and the validator
    is not consulted; a value above the maximum (15 for water_intake, 24
    for the others) is reported with the message "<field> seems unreasonably
    high"; any other value is kept as it is. *)
Theorem bounded_field_outcomes (name : string) (v : Q) :
  In name validated_fields ->
  exists mx,
    dict_get max_values name = Some (inject_Z mx) /\
    ((v < 0)%Q ->
       field_float_checked name v =
         inl (mkErrorItem name greater_than_equal)) /\
    ((inject_Z mx < v)%Q ->
       field_float_checked name v =
         inl (mkErrorItem name
                (value_error (name ++ " seems unreasonably high")))) /\
    ((0 <= v)%Q -> (v <= inject_Z mx)%Q ->
       field_float_checked name v = inr v).
Proof.
  intros I. destruct (validated_field_max _ I) as (mx & D & M).
  exists mx. split; [exact D|].
  unfold field_float_checked, field_float_ge0, check_reasonable_values.
  rewrite D. split; [|split].
  - intros H. destruct (Qle_bool 0 v) eqn:E; [|reflexivity].
    apply Qle_bool_iff in E. exfalso. revert H. apply Qle_not_lt, E.
  - intros H.
    assert (P : (0 <= v)%Q).
    { apply Qlt_le_weak. apply Qle_lt_trans with (y := inject_Z mx); [|exact H].
      destruct M as [-> | ->]; discriminate. }
    apply Qle_bool_iff in P. rewrite P.
    apply Qgtb_true in H. rewrite H. reflexivity.
  - intros L U. apply Qle_bool_iff in L. rewrite L.
    apply Qgtb_false in U. rewrite U. reflexivity.
Qed.

Lemma bounded_field_outcomes_witness :
  field_float_checked "sleep" (-1) =
    inl (mkErrorItem "sleep" greater_than_equal) /\
  field_float_checked "sleep" 25 =
    inl (mkErrorItem "sleep" (value_error "sleep seems unreasonably high")) /\
  field_float_checked "sleep" 24 = inr 24%Q.
Proof.
  destruct (bounded_field_outcomes "sleep" (-1))
    as (mx1 & D1 & N1 & _);
    [right; left; reflexivity|].
  destruct (bounded_field_outcomes "sleep" 25)
    as (mx2 & D2 & _ & H2 & _);
    [right; left; reflexivity|].
  destruct (bounded_field_outcomes "sleep" 24)
    as (mx3 & D3 & _ & _ & K3);
    [right; left; reflexivity|].
  inversion D1; inversion D2; inversion D3; subst.
  split; [apply N1; reflexivity|].
  split; [apply H2; reflexivity|].
  apply K3; discriminate.
Defined.

(** X6: the validator alone: on a field of the decorator it never fails on
    the lookup of the maximum, it returns its argument unchanged or raises
    the ValueError naming the field, and it imposes no lower bound (a value
    that is negative passes it); on any other field name the lookup of the
    maximum fails with a KeyError. *)
Theorem check_reasonable_values_outcomes (name : string) (v : Q) :
  (In name validated_fields ->
     (check_reasonable_values name v = inr v \/
      check_reasonable_values name v =
        inl (PyException "ValueError"
               (name ++ " seems unreasonably high"))) /\
     ((v <= 0)%Q -> check_reasonable_values name v = inr v)) /\
  (~ In name validated_fields ->
     exists msg,
       check_reasonable_values name v = inl (PyException "KeyError" msg)).
Proof.
  split.
  - intros I. destruct (validated_field_max _ I) as (mx & D & M).
    unfold check_reasonable_values. rewrite D. split.
    + destruct (Qgtb v (inject_Z mx)); auto.
    + intros H.
      assert (U : (v <= inject_Z mx)%Q).
      { apply Qle_trans with (y := 0%Q); [exact H|].
        destruct M as [-> | ->]; discriminate. }
      apply Qgtb_false in U. rewrite U. reflexivity.
  - intros N. unfold check_reasonable_values.
    rewrite (unvalidated_field_max _ N). eauto.
Qed.

Lemma check_reasonable_values_outcomes_witness :
  check_reasonable_values "water_intake" (-3) = inr (-3)%Q /\
  exists msg,
    check_reasonable_values "exercise" 500 =
      inl (PyException "KeyError" msg).
Proof.
  split.
  - apply (proj1 (check_reasonable_values_outcomes "water_intake" (-3))).
    + left. reflexivity.
    + discriminate.
  - apply (proj2 (check_reasonable_values_outcomes "exercise" 500)).
    simpl. intros [H|[H|[H|[H|[]]]]]; discriminate H.
Defined.

(* ------------------------------------------------------------------ *)
(** ** Requests, calls and responses *)

(** X7: what a request makes the handler call: nothing when validation
    fails; the Scorer alone, once, when it raises; the Scorer and then the
    Recommender, once each, when the Scorer returns.  The Recommender is
    never called before the Scorer nor after a failure of the Scorer, and
    both are called on the validated values. *)
Theorem calls_of_a_request scorer recommender (p : Payload) :
  (exists errs,
     validate p = inl errs /\
     snd (post_predict scorer recommender p) = []) \/
  (exists m,
     validate p = inr m /\ payload_of m = p /\
     ((exists e, scorer m = inl e /\
         snd (post_predict scorer recommender p) = [CallScorer m]) \/
      (exists s, scorer m = inr s /\
         snd (post_predict scorer recommender p) =
           [CallScorer m; CallRecommender (recommender_args m)]))).
Proof.
  destruct (validate p) as [errs|m] eqn:V.
  - left. exists errs. split; [reflexivity|].
    rewrite (post_predict_rejected _ _ _ _ V). reflexivity.
  - right. exists m. split; [reflexivity|].
    split; [apply (validation_keeps_values_aux p m V)|].
    pose proof (post_predict_outcome scorer recommender _ _ V) as O.
    inversion O as [e H1 E|s e H1 H2 E|s recs H1 H2 E]; simpl.
    + left. eauto.
    + right. eauto.
    + right. eauto.
Qed.

(** X8: a request is answered with a result exactly when it passes
    validation and both imported functions return; the result then carries
    the Scorer's value rounded to one decimal and the Recommender's list as
    it was returned, entry for entry and in the same order. *)
Theorem result_of_a_request scorer recommender (p : Payload)
    (out : MoodOutput) :
  fst (post_predict scorer recommender p) = Http200 out <->
  exists m s recs,
    validate p = inr m /\ scorer m = inr s /\
    recommender (recommender_args m) = inr recs /\
    out = mkMoodOutput (round1 s) recs.
Proof.
  split.
  - intros H. apply post_predict_200_inv in H.
    destruct H as (m & s & recs & V & S & R & _ & ->).
    exists m, s, recs. auto.
  - intros (m & s & recs & V & S & R & ->).
    rewrite (post_predict_accepted _ _ _ _ V),
            (predict_mood_returns _ _ _ _ _ S R).
    reflexivity.
Qed.

(** X9: validation does not look at the day rating: replacing it by any
    string leaves a rejected payload rejected with the same errors, and an
    accepted payload accepted with the same values in every other field. *)
Theorem validation_ignores_day_rating (s : string) (p : Payload) :
  validate (payload_with_day_rating s p) =
  match validate p with
  | inl errs => inl errs
  | inr m => inr (with_day_rating s m)
  end.
Proof.
  unfold validate, payload_with_day_rating, field_str. simpl.
  destruct (field_float_checked "water_intake" (p_water_intake p)),
           (field_int_ge0 "people_met" (p_people_met p)),
           (field_int_ge0 "exercise" (p_exercise p)),
           (field_float_checked "sleep" (p_sleep p)),
           (field_float_checked "screen_time" (p_screen_time p)),
           (field_float_checked "outdoor_time" (p_outdoor_time p)),
           (field_stress_level "stress_level" (p_stress_level p)),
           (field_food_quality "food_quality" (p_food_quality p));
    reflexivity.
Qed.

(* ------------------------------------------------------------------ *)
(** ** Rounding to one decimal *)

Lemma floor_bounds (y : Q) :
  (inject_Z (Qfloor y) <= y)%Q /\ (y < inject_Z (Qfloor y) + 1)%Q.
Proof.
  split; [apply Qfloor_le|].
  pose proof (Qlt_floor y) as H. rewrite inject_Z_plus in H. exact H.
Qed.

Lemma round_half_even_cases (y : Q) :
  let r := (y - inject_Z (Qfloor y))%Q in
  ((r < 1 # 2)%Q /\ round_half_even y = Qfloor y) \/
  ((1 # 2 < r)%Q /\ round_half_even y = Qfloor y + 1) \/
  ((r == 1 # 2)%Q /\
   round_half_even y = if Z.even (Qfloor y) then Qfloor y else Qfloor y + 1).
Proof.
  unfold round_half_even. cbv zeta.
  destruct (Qcompare_spec (y - inject_Z (Qfloor y)) (1 # 2)); auto.
Qed.

Lemma round_half_even_monotone (a b : Q) :
  (a <= b)%Q -> round_half_even a <= round_half_even b.
Proof.
  intros H. pose proof (Qfloor_resp_le _ _ H) as F.
  pose proof (round_half_even_floor a) as Ba.
  pose proof (round_half_even_floor b) as Bb.
  destruct (Z.eq_dec (Qfloor a) (Qfloor b)) as [E|N]; [|lia].
  destruct (round_half_even_cases a) as [[Ra Ea]|[[Ra Ea]|[Ra Ea]]];
    [lia| |].
  - destruct (round_half_even_cases b) as [[Rb Eb]|[[Rb Eb]|[Rb Eb]]].
    + exfalso. rewrite <- E in Rb. revert H Ra Rb.
      generalize (inject_Z (Qfloor a)). intros f H Ra Rb. lra.
    + lia.
    + exfalso. rewrite <- E in Rb. revert H Ra Rb.
      generalize (inject_Z (Qfloor a)). intros f H Ra Rb. lra.
  - destruct (round_half_even_cases b) as [[Rb Eb]|[[Rb Eb]|[Rb Eb]]].
    + exfalso. rewrite <- E in Rb. revert H Ra Rb.
      generalize (inject_Z (Qfloor a)). intros f H Ra Rb. lra.
    + destruct (Z.even (Qfloor a)); lia.
    + rewrite Ea, Eb, E. lia.
Qed.

Lemma round_half_even_integer (k : Z) (y : Q) :
  (y == inject_Z k)%Q -> round_half_even y = k.
Proof.
  intros H. apply Z.le_antisymm.
  - apply round_half_even_upper. rewrite H. apply Qle_refl.
  - apply round_half_even_lower. rewrite H. apply Qle_refl.
Qed.

Lemma floor_of_half (k : Z) (y : Q) :
  (y == inject_Z k + (1 # 2))%Q -> Qfloor y = k.
Proof.
  intros H. destruct (floor_bounds y) as [L U].
  assert (A : (inject_Z (Qfloor y) < inject_Z (k + 1))%Q).
  { rewrite inject_Z_plus. change (inject_Z 1) with 1%Q.
    revert L U H. generalize (inject_Z (Qfloor y)), (inject_Z k).
    intros f c L U H. lra. }
  assert (B : (inject_Z k < inject_Z (Qfloor y + 1))%Q).
  { rewrite inject_Z_plus. change (inject_Z 1) with 1%Q.
    revert L U H. generalize (inject_Z (Qfloor y)), (inject_Z k).
    intros f c L U H. lra. }
  rewrite <- Zlt_Qlt in A, B. lia.
Qed.

Lemma round_half_even_tie (k : Z) (y : Q) :
  (y == inject_Z k + (1 # 2))%Q ->
  round_half_even y = if Z.even k then k else k + 1.
Proof.
  intros H. pose proof (floor_of_half _ _ H) as F.
  destruct (round_half_even_cases y) as [[R E]|[[R E]|[R E]]].
  - exfalso. rewrite F in R. revert H R. generalize (inject_Z k).
    intros c H R. lra.
  - exfalso. rewrite F in R. revert H R. generalize (inject_Z k).
    intros c H R. lra.
  - rewrite E, F. reflexivity.
Qed.

Lemma tenths_times_ten (k : Z) :
  (inject_Z k / inject_Z 10 * inject_Z 10 == inject_Z k)%Q.
Proof. field. Qed.

Lemma round1_of_tenths (k : Z) :
  round1 (inject_Z k / inject_Z 10) = (inject_Z k / inject_Z 10)%Q.
Proof.
  unfold round1.
  rewrite (round_half_even_integer k); [reflexivity|].
  apply tenths_times_ten.
Qed.

(** X11: rounding keeps the order of scores and does not depend on how a
    value is written: a larger value of the Scorer is never reported as a
    smaller score, and equal values are reported by the same score. *)
Theorem rounding_keeps_order (x y : Q) :
  ((x <= y)%Q -> (round1 x <= round1 y)%Q) /\
  ((x == y)%Q -> round1 x = round1 y).
Proof.
  assert (M : forall a b, (a <= b)%Q ->
            round_half_even (a * inject_Z 10)
            <= round_half_even (b * inject_Z 10)).
  { intros a b H. apply round_half_even_monotone.
    apply Qmult_le_compat_r; [exact H|discriminate]. }
  split.
  - intros H. unfold round1, Qdiv.
    apply Qmult_le_compat_r; [|discriminate].
    rewrite <- Zle_Qle. apply M, H.
  - intros H. unfold round1. f_equal. f_equal.
    apply Z.le_antisymm; apply M; rewrite H; apply Qle_refl.
Qed.

Lemma rounding_keeps_order_witness :
  (round1 (734 # 100) <= round1 (735 # 100))%Q /\
  round1 (1 # 2) = round1 (5 # 10).
Proof.
  split.
  - apply (proj1 (rounding_keeps_order (734 # 100) (735 # 100))).
    discriminate.
  - apply (proj2 (rounding_keeps_order (1 # 2) (5 # 10))). reflexivity.
Defined.

(** X12: a value that is a whole number of tenths is reported as it is, so
    rounding a reported score again changes nothing. *)
Theorem rounding_is_idempotent (x : Q) (k : Z) :
  round1 (inject_Z k / inject_Z 10) = (inject_Z k / inject_Z 10)%Q /\
  round1 (round1 x) = round1 x.
Proof.
  split; [apply round1_of_tenths|].
  unfold round1 at 2 3. apply round1_of_tenths.
Qed.

(** X13: a value exactly halfway between two tenths goes to the one whose
    last digit is even: k tenths and a half is reported as k tenths when k
    is even and as k + 1 tenths when k is odd. *)
Theorem rounding_ties_to_even (x : Q) (k : Z) :
  (x * inject_Z 10 == inject_Z k + (1 # 2))%Q ->
  round1 x =
    (inject_Z (if Z.even k then k else k + 1) / inject_Z 10)%Q /\
  Z.even (round_half_even (x * inject_Z 10)) = true.
Proof.
  intros H. pose proof (round_half_even_tie _ _ H) as T.
  unfold round1. rewrite T. split; [reflexivity|].
  destruct (Z.even k) eqn:E; [exact E|].
  rewrite Z.even_add, E. reflexivity.
Qed.

Lemma rounding_ties_to_even_witness :
  round1 (25 # 100) = (inject_Z 2 / inject_Z 10)%Q /\
  round1 (75 # 100) = (inject_Z 8 / inject_Z 10)%Q.
Proof.
  split.
  - apply (proj1 (rounding_ties_to_even (25 # 100) 2 ltac:(reflexivity))).
  - apply (proj1 (rounding_ties_to_even (75 # 100) 7 ltac:(reflexivity))).
Defined.
